(** * DemoApp backend ([backend/main.py]): a shallow embedding

    The backend is a set of FastAPI route handlers over one SQLite file with
    three tables.  Each handler is embedded as a function from the request's
    declared parameters, the clock readings it makes and the store to a
    response and the store it leaves behind.

    What belongs to the libraries is modelled as follows.
    - A table is the list of its rows in rowid order, which is insertion
      order because no statement ever supplies an id or deletes a row.
    - A Python [int] is a [Z]; binding one that does not fit SQLite's 64-bit
      INTEGER raises [OverflowError] in the driver.
    - A Python [str] is the list of its code points.  Text is taken to be
      well-formed Unicode (a lone surrogate cannot be bound at all).
    - [LIKE] is SQLite's: [%] and [_] are wildcards, letters of the ASCII
      range compare without case, the operands are read up to their first
      NUL character, and a pattern of more than 50000 bytes is an error.
    - A [datetime] is a count of microseconds.  SQLite keeps it as ISO text
      with four-digit years, whose text order is the order of the counts.
    - An HS256 token is kept symbolically, as its payload and signing key. *)

From Stdlib Require Import ZArith NArith List Bool String Ascii Lia.
From Stdlib Require Import Sorted Permutation.
Import ListNotations.

(** ** Text *)

Definition char := N.
Definition str := list char.

Definition text (s : string) : str := map N_of_ascii (list_ascii_of_string s).
Arguments text s%_string.

Definition str_eq_dec : forall a b : str, {a = b} + {a <> b} := list_eq_dec N.eq_dec.

Definition str_eqb (a b : str) : bool := if str_eq_dec a b then true else false.

(** [r[1][:200]] and [len]: slices and lengths count code points. *)
Definition slice_to (n : nat) (s : str) : str := firstn n s.



(** ** Dates *)

Definition datetime := Z.

Definition timedelta_days (days : Z) : Z := (days * 86400 * 1000000)%Z.

(** ** JSON bodies

    The dict and list literals the handlers return.  [JTime] is the text of
    a datetime, [JToken] the compact form of a signed token. *)

Record payload := mk_payload {
  p_email : str;
  p_user_id : Z;
  p_exp : datetime
}.

Record jwt := mk_jwt {
  jwt_payload : payload;
  jwt_key : str
}.

#[local] Set Warnings "-register-all".
Inductive json :=
| JInt (z : Z)
| JStr (s : str)
| JTime (t : datetime)
| JToken (t : jwt)
| JList (l : list json)
| JDict (fields : list (string * json)).

Definition field (k : string) (v : json) : string * json := (k, v).
Arguments field k%_string v.

Definition keys (j : json) : list string :=
  match j with
  | JDict fields => map fst fields
  | _ => []
  end.

(** ** Responses and exceptions *)

Inductive response :=
| Ok (body : json)
| HTTPException (status_code : Z) (detail : str).

Definition status (r : response) : Z :=
  match r with
  | Ok _ => 200%Z
  | HTTPException c _ => c
  end.

(** The token a response carries under ["access_token"], if any. *)
Fixpoint lookup_field (k : string) (fields : list (string * json)) : option json :=
  match fields with
  | [] => None
  | (k', v) :: rest => if String.eqb k k' then Some v else lookup_field k rest
  end.

Definition access_token (r : response) : option jwt :=
  match r with
  | Ok (JDict fields) =>
      match lookup_field "access_token" fields with
      | Some (JToken t) => Some t
      | _ => None
      end
  | _ => None
  end.

(** What a statement can raise: [sqlite3.IntegrityError], caught by its own
    clause in [signup], and everything else, caught as [Exception]. *)
Inductive exn :=
| IntegrityError (msg : str)
| Exception (msg : str).

Definition result (A : Type) : Type := A + exn.

Definition ret {A} (a : A) : result A := inl a.
Definition raise {A} (e : exn) : result A := inr e.
Definition bind {A B} (m : result A) (k : A -> result B) : result B :=
  match m with
  | inl a => k a
  | inr e => inr e
  end.

Notation "x <- m ;; k" := (bind m (fun x => k))
  (at level 61, m at next level, right associativity).

(** ** The store *)

Record user_row := mk_user {
  u_id : Z;
  u_email : str;
  u_name : str;
  u_password : str;
  u_created_at : datetime
}.

Record message_row := mk_message {
  m_id : Z;
  m_user_id : Z;
  m_message : str;
  m_response : str;
  m_created_at : datetime
}.

Record document_row := mk_document {
  d_id : Z;
  d_user_id : Z;
  d_filename : str;
  d_content : str;
  d_created_at : datetime
}.

Record store := mk_store {
  users : list user_row;
  messages : list message_row;
  documents : list document_row
}.

Arguments mk_user u_id%_Z u_email u_name u_password u_created_at%_Z.
Arguments mk_message m_id%_Z m_user_id%_Z m_message m_response m_created_at%_Z.
Arguments mk_document d_id%_Z d_user_id%_Z d_filename d_content d_created_at%_Z.

(** [init_db] on a fresh file: three empty tables. *)
Definition init_db : store := mk_store [] [] [].

(** The id an [INTEGER PRIMARY KEY] column gets when the INSERT gives none:
    one more than the largest rowid in the table, 1 in an empty table.
    (SQLite leaves this rule only once a rowid has reached 2^63 - 1.) *)
Definition next_rowid (ids : list Z) : Z := (fold_right Z.max 0 ids + 1)%Z.

(** Binding a Python int to a statement parameter. *)
Definition sqlite_int (z : Z) : bool := ((- 2 ^ 63 <=? z) && (z <? 2 ^ 63))%Z.

Definition bind_int (z : Z) : result Z :=
  if sqlite_int z then ret z
  else raise (Exception (text "Python int too large to convert to SQLite INTEGER")).

(** *** LIKE *)

Definition matchAll : char := 37%N.   (* % *)
Definition matchOne : char := 95%N.   (* _ *)

Definition sqlite3Tolower (c : char) : char :=
  if (65 <=? c)%N && (c <=? 90)%N then (c + 32)%N else c.

(** Two characters agree when they are equal, or both in the ASCII range and
    equal once lowered. *)
Definition char_match (c c2 : char) : bool :=
  N.eqb c c2 ||
  (N.eqb (sqlite3Tolower c) (sqlite3Tolower c2) && (c <? 128)%N && (c2 <? 128)%N).

(** [patternCompare] of SQLite's [func.c] for LIKE without ESCAPE, on the
    characters before the terminating NUL of pattern and string. *)
Fixpoint patternCompare (zPattern : str) : str -> bool :=
  match zPattern with
  | [] => fun zString => match zString with [] => true | _ :: _ => false end
  | c :: zPattern' =>
      if N.eqb c matchAll then
        fix skip (zString : str) : bool :=
          patternCompare zPattern' zString ||
          match zString with
          | [] => false
          | _ :: zString' => skip zString'
          end
      else
        fun zString =>
          match zString with
          | [] => false
          | c2 :: zString' =>
              (char_match c c2 || N.eqb c matchOne) && patternCompare zPattern' zString'
          end
  end.

(** The text as a C string: what precedes the first NUL. *)
Fixpoint c_str (s : str) : str :=
  match s with
  | [] => []
  | c :: s' => if N.eqb c 0 then [] else c :: c_str s'
  end.

(** Length of the UTF-8 encoding, in bytes. *)
Definition utf8_len (c : char) : Z :=
  if (c <? 128)%N then 1%Z
  else if (c <? 2048)%N then 2%Z
  else if (c <? 65536)%N then 3%Z
  else 4%Z.

Definition nbytes (s : str) : Z := fold_right (fun c n => (utf8_len c + n)%Z) 0%Z s.

Definition SQLITE_MAX_LIKE_PATTERN_LENGTH : Z := 50000.

(** [text LIKE pattern], as [likeFunc] evaluates it for one row. *)
Definition like (pattern txt : str) : result bool :=
  if (SQLITE_MAX_LIKE_PATTERN_LENGTH <? nbytes pattern)%Z
  then raise (Exception (text "LIKE or GLOB pattern too complex"))
  else ret (patternCompare (c_str pattern) (c_str txt)).

(** *** The SQL statements of the handlers *)

(** [INSERT INTO users (email, name, password, created_at)]: the UNIQUE
    constraint on [email] compares the texts exactly. *)
Definition insert_user (email name password : str) (created_at : datetime)
    (db : store) : result store :=
  if existsb (fun u => str_eqb (u_email u) email) (users db)
  then raise (IntegrityError (text "UNIQUE constraint failed: users.email"))
  else
    let id := next_rowid (map u_id (users db)) in
    ret (mk_store (users db ++ [mk_user id email name password created_at])
                  (messages db) (documents db)).

(** [SELECT ... FROM users WHERE email = ?] followed by [fetchone()]. *)
Definition select_user_by_email (email : str) (db : store) : option user_row :=
  find (fun u => str_eqb (u_email u) email) (users db).

(** [INSERT INTO messages (user_id, message, response, created_at)]. *)
Definition insert_message (user_id : Z) (message response : str)
    (created_at : datetime) (db : store) : result store :=
  uid <- bind_int user_id ;;
  let id := next_rowid (map m_id (messages db)) in
  ret (mk_store (users db)
                (messages db ++ [mk_message id uid message response created_at])
                (documents db)).

(** [ORDER BY created_at DESC]: the sorter keeps rows of equal key in the
    order the scan met them. *)
Fixpoint insert_desc (m : message_row) (sorted : list message_row) : list message_row :=
  match sorted with
  | [] => [m]
  | x :: sorted' =>
      if (m_created_at x <=? m_created_at m)%Z then m :: sorted
      else x :: insert_desc m sorted'
  end.

Definition order_by_created_at_desc (rows : list message_row) : list message_row :=
  fold_right insert_desc [] rows.

Definition messages_of (user_id : Z) (db : store) : list message_row :=
  filter (fun m => (m_user_id m =? user_id)%Z) (messages db).

(** [SELECT message, response, created_at FROM messages WHERE user_id = ?
    ORDER BY created_at DESC] with [fetchall()]. *)
Definition select_messages (user_id : Z) (db : store)
    : result (list (str * str * datetime)) :=
  uid <- bind_int user_id ;;
  ret (map (fun m => (m_message m, m_response m, m_created_at m))
           (order_by_created_at_desc (messages_of uid db))).

(** [INSERT INTO documents (user_id, filename, content, created_at)]. *)
Definition insert_document (user_id : Z) (filename content : str)
    (created_at : datetime) (db : store) : result store :=
  uid <- bind_int user_id ;;
  let id := next_rowid (map d_id (documents db)) in
  ret (mk_store (users db) (messages db)
                (documents db ++ [mk_document id uid filename content created_at])).

Definition documents_of (user_id : Z) (db : store) : list document_row :=
  filter (fun d => (d_user_id d =? user_id)%Z) (documents db).

(** [SELECT id, filename, created_at FROM documents WHERE user_id = ?]. *)
Definition select_documents (user_id : Z) (db : store)
    : result (list (Z * str * datetime)) :=
  uid <- bind_int user_id ;;
  ret (map (fun d => (d_id d, d_filename d, d_created_at d)) (documents_of uid db)).

(** [SELECT filename, content FROM documents WHERE user_id = ? AND content
    LIKE ?]: the scan evaluates [LIKE] on the rows that pass the first test,
    and the statement fails as soon as one evaluation does. *)
Fixpoint scan_like (uid : Z) (pattern : str) (rows : list document_row)
    : result (list (str * str)) :=
  match rows with
  | [] => ret []
  | d :: rows' =>
      if (d_user_id d =? uid)%Z then
        hit <- like pattern (d_content d) ;;
        rest <- scan_like uid pattern rows' ;;
        ret (if hit then (d_filename d, d_content d) :: rest else rest)
      else scan_like uid pattern rows'
  end.

Definition select_documents_like (user_id : Z) (pattern : str) (db : store)
    : result (list (str * str)) :=
  uid <- bind_int user_id ;;
  scan_like uid pattern (documents db).

(** ** Configuration and clock *)

(** [JWT_SECRET], read once from the environment. *)
Record config := mk_config {
  JWT_SECRET : str
}.

(** [os.getenv]'s fallback. *)
Definition default_config : config :=
  mk_config (text "your-secret-key-change-in-production").

(** What the clock answers during one request: the first and the second
    [datetime.now()], and [datetime.utcnow()]. *)
Record clock := mk_clock {
  now : datetime;
  now_again : datetime;
  utcnow : datetime
}.

Arguments mk_clock (now now_again utcnow)%_Z.

(** ** Token service *)

Definition create_token (cfg : config) (clk : clock) (email : str) (user_id : Z) : jwt :=
  let payload := mk_payload email user_id (utcnow clk + timedelta_days 7)%Z in
  mk_jwt payload (JWT_SECRET cfg).

(** Tokens being symbolic, [jwt.decode] is taken at its ideal: it accepts a
    token made with the same key whose [exp] lies ahead.  Every failure
    becomes the same 401.  No route calls this function. *)
Definition verify_token (cfg : config) (clk : clock) (token : jwt) : payload + response :=
  if str_eqb (jwt_key token) (JWT_SECRET cfg) && (utcnow clk <? p_exp (jwt_payload token))%Z
  then inl (jwt_payload token)
  else inr (HTTPException 401 (text "Invalid token")).

(** ** Request models *)

Record LoginRequest := mk_login {
  l_email : str;
  l_password : str
}.

Record SignupRequest := mk_signup {
  s_name : str;
  s_email : str;
  s_password : str
}.

Record ChatMessage := mk_chat {
  c_message : str;
  c_user_id : Z
}.

Definition exn_str (e : exn) : str :=
  match e with
  | IntegrityError msg => msg
  | Exception msg => msg
  end.

(** ** Routes *)

Definition root : response :=
  Ok (JDict [field "message" (JStr (text "DemoApp API is running"));
             field "status" (JStr (text "ok"))]).

Definition health (clk : clock) : response :=
  Ok (JDict [field "status" (JStr (text "healthy"));
             field "timestamp" (JTime (now clk))]).

Definition token_response (token : jwt) (user_id : Z) (email name : str) : response :=
  Ok (JDict [field "access_token" (JToken token);
             field "token_type" (JStr (text "bearer"));
             field "user" (JDict [field "id" (JInt user_id);
                                  field "email" (JStr email);
                                  field "name" (JStr name)])]).

Definition signup (cfg : config) (clk : clock) (request : SignupRequest) (db : store)
    : response * store :=
  match insert_user (s_email request) (s_name request) (s_password request) (now clk) db with
  | inr (IntegrityError _) => (HTTPException 400 (text "Email already exists"), db)
  | inr (Exception e) => (HTTPException 500 e, db)
  | inl db' =>
      match select_user_by_email (s_email request) db' with
      | None => (HTTPException 500 (text "'NoneType' object is not subscriptable"), db')
      | Some row =>
          let user_id := u_id row in
          let token := create_token cfg clk (s_email request) user_id in
          (token_response token user_id (s_email request) (s_name request), db')
      end
  end.

Definition login (cfg : config) (clk : clock) (request : LoginRequest) (db : store)
    : response * store :=
  match select_user_by_email (l_email request) db with
  | None => (HTTPException 401 (text "Invalid email or password"), db)
  | Some user =>
      if negb (str_eqb (u_password user) (l_password request))
      then (HTTPException 401 (text "Invalid email or password"), db)
      else
        let user_id := u_id user in
        let name := u_name user in
        let token := create_token cfg clk (l_email request) user_id in
        (token_response token user_id (l_email request) name, db)
  end.

Definition chat (clk : clock) (message : ChatMessage) (db : store) : response * store :=
  let response_text := (text "Response to: " ++ c_message message)%list in
  match insert_message (c_user_id message) (c_message message) response_text (now clk) db with
  | inl db' =>
      (Ok (JDict [field "message" (JStr (c_message message));
                  field "response" (JStr response_text);
                  field "timestamp" (JTime (now_again clk))]), db')
  | inr e => (HTTPException 500 (exn_str e), db)
  end.

Definition message_json (msg : str * str * datetime) : json :=
  let '(message, response, created_at) := msg in
  JDict [field "message" (JStr message);
         field "response" (JStr response);
         field "created_at" (JTime created_at)].

Definition get_messages (user_id : Z) (db : store) : response * store :=
  match select_messages user_id db with
  | inl messages => (Ok (JDict [field "messages" (JList (map message_json messages))]), db)
  | inr e => (HTTPException 500 (exn_str e), db)
  end.

Definition upload_document (clk : clock) (user_id : Z) (filename content : str) (db : store)
    : response * store :=
  match insert_document user_id filename content (now clk) db with
  | inl db' =>
      (Ok (JDict [field "status" (JStr (text "success"));
                  field "filename" (JStr filename)]), db')
  | inr e => (HTTPException 500 (exn_str e), db)
  end.

Definition document_json (doc : Z * str * datetime) : json :=
  let '(id, filename, created_at) := doc in
  JDict [field "id" (JInt id);
         field "filename" (JStr filename);
         field "created_at" (JTime created_at)].

Definition get_documents (user_id : Z) (db : store) : response * store :=
  match select_documents user_id db with
  | inl documents => (Ok (JDict [field "documents" (JList (map document_json documents))]), db)
  | inr e => (HTTPException 500 (exn_str e), db)
  end.

(** [r[1][:200] if len(r[1]) > 200 else r[1]]. *)
Definition excerpt (content : str) : str :=
  if Nat.ltb 200 (List.length content) then slice_to 200 content else content.

Definition result_json (r : str * str) : json :=
  JDict [field "filename" (JStr (fst r));
         field "excerpt" (JStr (excerpt (snd r)))].

(** The pattern [f"%{query}%"]. *)
Definition like_pattern (query : str) : str := (matchAll :: query ++ [matchAll])%list.

Definition search (user_id : Z) (query : str) (db : store) : response * store :=
  match select_documents_like user_id (like_pattern query) db with
  | inl results =>
      (Ok (JDict [field "query" (JStr query);
                  field "results" (JList (map result_json results))]), db)
  | inr e => (HTTPException 500 (exn_str e), db)
  end.

(** ** The application

    A request as FastAPI hands it to a route: the route with its declared
    parameters.  The HTTP request around it also carries headers, among
    them the caller's [Authorization] token. *)

Inductive request :=
| GET_root
| GET_health
| POST_signup (request : SignupRequest)
| POST_login (request : LoginRequest)
| POST_chat (message : ChatMessage)
| GET_messages (user_id : Z)
| POST_upload (user_id : Z) (filename content : str)
| GET_documents (user_id : Z)
| POST_search (user_id : Z) (query : str).

Record http_request := mk_http {
  headers : list (str * str);
  call : request
}.

Definition handle (cfg : config) (clk : clock) (r : request) (db : store)
    : response * store :=
  match r with
  | GET_root => (root, db)
  | GET_health => (health clk, db)
  | POST_signup request => signup cfg clk request db
  | POST_login request => login cfg clk request db
  | POST_chat message => chat clk message db
  | GET_messages user_id => get_messages user_id db
  | POST_upload user_id filename content => upload_document clk user_id filename content db
  | GET_documents user_id => get_documents user_id db
  | POST_search user_id query => search user_id query db
  end.

Definition app (cfg : config) (clk : clock) (h : http_request) (db : store)
    : response * store :=
  handle cfg clk (call h) db.

(** Requests served one after the other, each with its own clock readings. *)
Fixpoint run (cfg : config) (trace : list (clock * http_request)) (db : store)
    : list response * store :=
  match trace with
  | [] => ([], db)
  | (clk, h) :: trace' =>
      let '(r, db') := app cfg clk h db in
      let '(rs, db'') := run cfg trace' db' in
      (r :: rs, db'')
  end.






(** ** Properties used in the statements *)

(** The UNIQUE constraint as a store invariant. *)
Definition unique_emails (db : store) : Prop := NoDup (map u_email (users db)).

(** The integer columns hold what SQLite can hold. *)
Definition int_columns (db : store) : Prop :=
  Forall (fun m => sqlite_int (m_user_id m) = true) (messages db) /\
  Forall (fun d => sqlite_int (d_user_id d) = true) (documents db).




(** [needle] occurs in [s]. *)
Definition occurs_in (needle s : str) : Prop :=
  exists before after, s = (before ++ needle ++ after)%list.

(** [db'] holds every row of [db], unchanged and in place, possibly
    followed by new ones. *)
Definition extends (db db' : store) : Prop :=
  (exists new, users db' = users db ++ new)%list /\
  (exists new, messages db' = messages db ++ new)%list /\
  (exists new, documents db' = documents db ++ new)%list.

(** What serving a request can have written: nothing, or the one row that
    the INSERT of its route added. *)
Inductive wrote (clk : clock) (db : store) : request -> store -> Prop :=
| wrote_nothing (r : request) :
    wrote clk db r db
| wrote_user (request : SignupRequest) (db' : store) :
    insert_user (s_email request) (s_name request) (s_password request) (now clk) db
      = inl db' ->
    wrote clk db (POST_signup request) db'
| wrote_message (message : ChatMessage) (db' : store) :
    insert_message (c_user_id message) (c_message message)
                   (text "Response to: " ++ c_message message)%list (now clk) db
      = inl db' ->
    wrote clk db (POST_chat message) db'
| wrote_document (user_id : Z) (filename content : str) (db' : store) :
    insert_document user_id filename content (now clk) db = inl db' ->
    wrote clk db (POST_upload user_id filename content) db'.

(** What [SELECT filename, content] keeps of a row. *)
Definition row_of (d : document_row) : str * str := (d_filename d, d_content d).

(** The WHERE clause of the search on one row, when nothing is raised. *)
Definition like_hit (uid : Z) (pattern : str) (d : document_row) : bool :=
  (d_user_id d =? uid)%Z && patternCompare (c_str pattern) (c_str (d_content d)).



(** ** Further definitions for the properties of the routes *)

(** [startup]: [init_db] creates the tables only when the database file is
    not there; an existing file is opened as it is.  The file system holds
    no file or a database with the three tables. *)
Definition startup (file : option store) : store :=
  match file with
  | None => init_db
  | Some db => db
  end.

(** A request that can add a row for the given user id. *)
Definition touches (user_id : Z) (r : request) : bool :=
  match r with
  | POST_chat message => (c_user_id message =? user_id)%Z
  | POST_upload uid _ _ => (uid =? user_id)%Z
  | _ => false
  end.

(** The uploads of a trace made with a given user id, oldest first, and
    what the document list is to show of each. *)
Definition upload_call (user_id : Z) (e : clock * http_request)
    : list (str * datetime) :=
  match call (snd e) with
  | POST_upload uid filename _ =>
      if (uid =? user_id)%Z then [(filename, now (fst e))] else []
  | _ => []
  end.

Definition upload_calls (user_id : Z) (trace : list (clock * http_request))
    : list (str * datetime) :=
  flat_map (upload_call user_id) trace.

Definition document_cols (d : document_row) : str * datetime :=
  (d_filename d, d_created_at d).

(** The ids 1, 2, ..., n. *)
Definition consecutive (n : nat) : list Z := map Z.of_nat (seq 1 n).

(** Rowids count the rows of each table. *)
Definition numbered (db : store) : Prop :=
  map u_id (users db) = consecutive (List.length (users db)) /\
  map m_id (messages db) = consecutive (List.length (messages db)) /\
  map d_id (documents db) = consecutive (List.length (documents db)).

(** Every stored response is the template applied to its message. *)
Definition templated (db : store) : Prop :=
  Forall (fun m => m_response m = (text "Response to: " ++ m_message m)%list)
         (messages db).

(** The same text up to the case of ASCII letters. *)
Definition same_letters (q q' : str) : Prop :=
  Forall2 (fun c c' => char_match c c' = true) q q'.

(** The result list of a search response. *)
Definition results_of (r : response) : option (list json) :=
  match r with
  | Ok (JDict fields) =>
      match lookup_field "results" fields with
      | Some (JList l) => Some l
      | _ => None
      end
  | _ => None
  end.

(** ** Sample data *)

Definition clk0 : clock := mk_clock 1000 1001 2000.
Definition clk1 : clock := mk_clock 3000 3001 4000.
Definition clk2 : clock := mk_clock 5000 5001 6000.

Definition alice : SignupRequest :=
  mk_signup (text "Alice") (text "alice@x.com") (text "p1").

Definition alice_row : user_row :=
  mk_user 1 (text "alice@x.com") (text "Alice") (text "p1") 1000.

Definition db_alice : store := mk_store [alice_row] [] [].

Definition db_hello : store :=
  mk_store [] [] [mk_document 1 1 (text "notes.txt") (text "Hello World") 1000].

Definition db_docs : store :=
  mk_store [] []
    [mk_document 1 1 (text "abc.txt") (text "abc") 1000;
     mk_document 2 1 (text "nul.txt") (text "x" ++ 0%N :: text "abc")%list 2000;
     mk_document 3 2 (text "other.txt") (text "Hello") 3000].

Definition chat_hi : ChatMessage := mk_chat (text "hi") 1.
Definition chat_other : ChatMessage := mk_chat (text "other") 2.
Definition chat_bye : ChatMessage := mk_chat (text "bye") 1.

Definition trace0 : list (clock * http_request) :=
  [(clk0, mk_http [] (POST_chat chat_hi));
   (clk1, mk_http [] (POST_chat chat_other));
   (clk2, mk_http [(text "Authorization", text "Bearer x")] (POST_chat chat_bye))].

Definition login_alice (password : string) : LoginRequest :=
  mk_login (text "alice@x.com") (text password).

Definition trace_other : list (clock * http_request) :=
  [(clk1, mk_http [] (POST_chat chat_other));
   (clk2, mk_http [] (POST_upload 2 (text "b.txt") (text "abc")));
   (clk2, mk_http [] (POST_signup alice))].

Definition trace_uploads : list (clock * http_request) :=
  [(clk0, mk_http [] (POST_upload 1 (text "a.txt") (text "first")));
   (clk1, mk_http [] (POST_upload 2 (text "b.txt") (text "other")));
   (clk2, mk_http [] (POST_upload 1 (text "c.txt") (text "second")))].


(* ================================================================= *)
(** * Theorems *)

(** ** Basic facts *)

Lemma str_eqb_eq (a b : str) : str_eqb a b = true <-> a = b.
Proof.
  unfold str_eqb. destruct (str_eq_dec a b); split; congruence.
Qed.

Lemma str_eqb_refl (a : str) : str_eqb a a = true.
Proof. apply str_eqb_eq. reflexivity. Qed.

Lemma str_eqb_neq (a b : str) : str_eqb a b = false <-> a <> b.
Proof.
  unfold str_eqb. destruct (str_eq_dec a b); split; congruence.
Qed.

Lemma extends_refl (db : store) : extends db db.
Proof.
  repeat split; exists []; symmetry; apply app_nil_r.
Qed.

Lemma extends_trans (a b c : store) : extends a b -> extends b c -> extends a c.
Proof.
  intros (u1 & m1 & d1) (u2 & m2 & d2).
  destruct u1 as [x1 Hx1], m1 as [y1 Hy1], d1 as [z1 Hz1].
  destruct u2 as [x2 Hx2], m2 as [y2 Hy2], d2 as [z2 Hz2].
  repeat split.
  - exists (x1 ++ x2)%list. rewrite Hx2, Hx1. symmetry. apply app_assoc.
  - exists (y1 ++ y2)%list. rewrite Hy2, Hy1. symmetry. apply app_assoc.
  - exists (z1 ++ z2)%list. rewrite Hz2, Hz1. symmetry. apply app_assoc.
Qed.

Lemma insert_user_extends email name password t db db' :
  insert_user email name password t db = inl db' -> extends db db'.
Proof.
  unfold insert_user. destruct (existsb _ _); [discriminate|].
  intros H. injection H as <-. repeat split; simpl.
  - eexists. reflexivity.
  - exists []. symmetry. apply app_nil_r.
  - exists []. symmetry. apply app_nil_r.
Qed.

Lemma insert_message_extends uid msg resp t db db' :
  insert_message uid msg resp t db = inl db' -> extends db db'.
Proof.
  unfold insert_message, bind_int. destruct (sqlite_int uid); [|discriminate].
  simpl. intros H. injection H as <-. repeat split; simpl.
  - exists []. symmetry. apply app_nil_r.
  - eexists. reflexivity.
  - exists []. symmetry. apply app_nil_r.
Qed.

Lemma insert_document_extends uid fn content t db db' :
  insert_document uid fn content t db = inl db' -> extends db db'.
Proof.
  unfold insert_document, bind_int. destruct (sqlite_int uid); [|discriminate].
  simpl. intros H. injection H as <-. repeat split; simpl.
  - exists []. symmetry. apply app_nil_r.
  - exists []. symmetry. apply app_nil_r.
  - eexists. reflexivity.
Qed.

Create HintDb store.
#[local] Hint Resolve extends_refl insert_user_extends insert_message_extends
  insert_document_extends : store.
#[local] Hint Constructors wrote : store.

(** Route by route: the store a request leaves behind. *)
Lemma handle_wrote cfg clk r db : wrote clk db r (snd (handle cfg clk r db)).
Proof.
  destruct r as [| |rq|rq|m|u|u fn c|u|u q]; simpl; auto with store.
  - unfold signup.
    destruct (insert_user _ _ _ _ db) as [db'|[msg|msg]] eqn:E; simpl; auto with store.
    destruct (select_user_by_email _ db'); simpl; auto with store.
  - unfold login. destruct (select_user_by_email _ db); simpl; auto with store.
    destruct (negb _); simpl; auto with store.
  - unfold chat.
    destruct (insert_message _ _ _ _ db) as [db'|e] eqn:E; simpl; auto with store.
  - unfold get_messages. destruct (select_messages _ db); simpl; auto with store.
  - unfold upload_document.
    destruct (insert_document _ _ _ _ db) as [db'|e] eqn:E; simpl; auto with store.
  - unfold get_documents. destruct (select_documents _ db); simpl; auto with store.
  - unfold search. destruct (select_documents_like _ _ db); simpl; auto with store.
Qed.

(** A property of stores that every write keeps is kept along a trace. *)
Lemma run_invariant (P : store -> Prop) :
  (forall clk db r db', P db -> wrote clk db r db' -> P db') ->
  forall cfg trace db, P db -> P (snd (run cfg trace db)).
Proof.
  intros Hstep cfg trace. induction trace as [|[clk h] trace IH]; intros db H; simpl.
  - exact H.
  - unfold app. pose proof (handle_wrote cfg clk (call h) db) as Hw.
    destruct (handle cfg clk (call h) db) as [r db']. simpl in Hw.
    specialize (IH db' (Hstep clk db (call h) db' H Hw)).
    destruct (run cfg trace db') as [rs db'']. exact IH.
Qed.

Lemma wrote_extends clk db r db' : wrote clk db r db' -> extends db db'.
Proof.
  destruct 1; eauto with store.
Qed.

Lemma handle_extends cfg clk r db : extends db (snd (handle cfg clk r db)).
Proof.
  eapply wrote_extends. apply handle_wrote.
Qed.

Lemma run_extends cfg trace db : extends db (snd (run cfg trace db)).
Proof.
  apply (run_invariant (extends db)); [|apply extends_refl].
  intros clk db1 r db2 H Hw. eapply extends_trans; [exact H|].
  eapply wrote_extends. exact Hw.
Qed.

(** ** C8: the API is append-only *)

(** C8. Whatever the endpoint and the request, every row of the users,
    messages and documents tables that is in the store before the call is in
    the store after it, unmodified and at the same place: each table after
    the call is the table before it followed by the rows the call added. *)
Theorem api_append_only (cfg : config) (clk : clock) (h : http_request) (db : store) :
  (exists new, users (snd (app cfg clk h db)) = users db ++ new)%list /\
  (exists new, messages (snd (app cfg clk h db)) = messages db ++ new)%list /\
  (exists new, documents (snd (app cfg clk h db)) = documents db ++ new)%list.
Proof.
  exact (handle_extends cfg clk (call h) db).
Qed.

(** ** C9: no route looks at the caller *)


(** The routes that only read answer from their parameters and the store
    alone: neither the configuration nor the clock nor the headers count. *)
Lemma read_routes_depend_on_store_only (cfg1 cfg2 : config) (clk1 clk2 : clock)
    (headers1 headers2 : list (str * str)) (user_id : Z) (query : str) (db : store) :
  app cfg1 clk1 (mk_http headers1 (GET_messages user_id)) db =
    app cfg2 clk2 (mk_http headers2 (GET_messages user_id)) db /\
  app cfg1 clk1 (mk_http headers1 (GET_documents user_id)) db =
    app cfg2 clk2 (mk_http headers2 (GET_documents user_id)) db /\
  app cfg1 clk1 (mk_http headers1 (POST_search user_id query)) db =
    app cfg2 clk2 (mk_http headers2 (POST_search user_id query)) db.
Proof.
  repeat split.
Qed.

(** ** The users table *)

Lemma email_taken_iff (email : str) (db : store) :
  existsb (fun u => str_eqb (u_email u) email) (users db) = true <->
  exists u, In u (users db) /\ u_email u = email.
Proof.
  rewrite existsb_exists. split; intros (u & Hin & H); exists u; split; trivial;
    apply str_eqb_eq; exact H.
Qed.

Lemma email_free_not_in (email : str) (db : store) :
  existsb (fun u => str_eqb (u_email u) email) (users db) = false ->
  ~ In email (map u_email (users db)).
Proof.
  intros H Hin. apply in_map_iff in Hin. destruct Hin as (u & Hu & Hin).
  assert (existsb (fun u => str_eqb (u_email u) email) (users db) = true) as E.
  { apply email_taken_iff. exists u. split; assumption. }
  congruence.
Qed.


Lemma find_by_unique_email (rows : list user_row) (u : user_row) :
  NoDup (map u_email rows) -> In u rows ->
  find (fun x => str_eqb (u_email x) (u_email u)) rows = Some u.
Proof.
  induction rows as [|x rows IH]; simpl; intros Hnd Hin; [contradiction|].
  inversion Hnd as [|? ? Hx Hnd']; subst.
  destruct Hin as [->|Hin].
  - rewrite str_eqb_refl. reflexivity.
  - destruct (str_eqb (u_email x) (u_email u)) eqn:E.
    + apply str_eqb_eq in E. exfalso. apply Hx. rewrite E.
      apply in_map. exact Hin.
    + apply IH; assumption.
Qed.


Lemma insert_user_unique email name password t db db' :
  unique_emails db ->
  insert_user email name password t db = inl db' ->
  unique_emails db'.
Proof.
  unfold insert_user, unique_emails.
  destruct (existsb _ _) eqn:E; [discriminate|].
  intros Hnd H. injection H as <-. simpl.
  rewrite map_app. simpl.
  apply NoDup_rev in Hnd. apply email_free_not_in in E.
  rewrite <- (rev_involutive (map u_email (users db) ++ [email])).
  apply NoDup_rev. rewrite rev_app_distr. simpl.
  constructor; [|exact Hnd].
  rewrite <- in_rev. exact E.
Qed.

Lemma insert_message_users uid msg resp t db db' :
  insert_message uid msg resp t db = inl db' -> users db' = users db.
Proof.
  unfold insert_message, bind_int. destruct (sqlite_int uid); [|discriminate].
  simpl. intros H. injection H as <-. reflexivity.
Qed.

Lemma insert_document_users uid fn content t db db' :
  insert_document uid fn content t db = inl db' -> users db' = users db.
Proof.
  unfold insert_document, bind_int. destruct (sqlite_int uid); [|discriminate].
  simpl. intros H. injection H as <-. reflexivity.
Qed.

Lemma wrote_unique_emails clk db r db' :
  unique_emails db -> wrote clk db r db' -> unique_emails db'.
Proof.
  intros H Hw. destruct Hw as [r|rq db' E|m db' E|u fn c db' E].
  - exact H.
  - eapply insert_user_unique; eassumption.
  - unfold unique_emails. rewrite (insert_message_users _ _ _ _ _ _ E). exact H.
  - unfold unique_emails. rewrite (insert_document_users _ _ _ _ _ _ E). exact H.
Qed.

(** Every store the API can build from a fresh database has distinct
    emails, so the hypothesis of the login theorem costs nothing. *)
Lemma run_unique_emails cfg trace db :
  unique_emails db -> unique_emails (snd (run cfg trace db)).
Proof.
  apply (run_invariant unique_emails). apply wrote_unique_emails.
Qed.

Lemma init_db_unique_emails : unique_emails init_db.
Proof. constructor. Qed.

(** ** C3: signup with a used email *)


(** ** C4: login *)


(** ** Pattern matching *)

Lemma patternCompare_star (p z : str) :
  patternCompare (matchAll :: p) z =
  patternCompare p z ||
  match z with
  | [] => false
  | _ :: z' => patternCompare (matchAll :: p) z'
  end.
Proof.
  destruct z; reflexivity.
Qed.

Lemma patternCompare_char (c : char) (p : str) (c2 : char) (z : str) :
  c <> matchAll ->
  patternCompare (c :: p) (c2 :: z) =
  (char_match c c2 || N.eqb c matchOne) && patternCompare p z.
Proof.
  intros H. simpl. apply N.eqb_neq in H. rewrite H. reflexivity.
Qed.

Lemma patternCompare_char_nil (c : char) (p : str) :
  c <> matchAll -> patternCompare (c :: p) [] = false.
Proof.
  intros H. simpl. apply N.eqb_neq in H. rewrite H. reflexivity.
Qed.

Lemma patternCompare_all (z : str) : patternCompare [matchAll] z = true.
Proof.
  induction z as [|c z IH]; rewrite patternCompare_star; simpl.
  - reflexivity.
  - exact IH.
Qed.

(** A leading [%] lets the rest of the pattern start anywhere. *)
Lemma patternCompare_star_iff (p z : str) :
  patternCompare (matchAll :: p) z = true <->
  exists before rest, z = (before ++ rest)%list /\ patternCompare p rest = true.
Proof.
  induction z as [|c z IH]; rewrite patternCompare_star, orb_true_iff.
  - split.
    + intros [H|H]; [|discriminate]. exists [], []. split; trivial.
    + intros (before & rest & E & H). left.
      symmetry in E. apply app_eq_nil in E. destruct E as [_ ->]. exact H.
  - rewrite IH. split.
    + intros [H|(before & rest & E & H)].
      * exists [], (c :: z). split; trivial.
      * exists (c :: before), rest. split; [simpl; congruence|exact H].
    + intros (before & rest & E & H). destruct before as [|b before].
      * left. simpl in E. subst rest. exact H.
      * right. simpl in E. injection E as -> E. exists before, rest. split; trivial.
Qed.

Lemma char_match_refl (c : char) : char_match c c = true.
Proof. unfold char_match. rewrite N.eqb_refl. reflexivity. Qed.

(** The query followed by [%] accepts every text that starts with the query
    itself, wildcards of the query included. *)
Lemma patternCompare_self (q z : str) :
  patternCompare (q ++ [matchAll]) (q ++ z) = true.
Proof.
  induction q as [|c q IH]; cbn [List.app].
  - apply patternCompare_all.
  - destruct (N.eq_dec c matchAll) as [->|Hc].
    + rewrite patternCompare_star. apply orb_true_iff. right.
      cbv beta iota. rewrite patternCompare_star, IH. reflexivity.
    + rewrite patternCompare_char by exact Hc.
      rewrite char_match_refl, IH. reflexivity.
Qed.

Lemma patternCompare_occurs (q s : str) :
  occurs_in q s -> patternCompare (like_pattern q) s = true.
Proof.
  intros (before & after & ->). unfold like_pattern.
  apply patternCompare_star_iff. exists before, (q ++ after)%list.
  split; [reflexivity|]. apply patternCompare_self.
Qed.



(** ** The search statement *)


Lemma scan_like_ok (uid : Z) (pattern : str) (rows : list document_row) :
  (nbytes pattern <= SQLITE_MAX_LIKE_PATTERN_LENGTH)%Z ->
  scan_like uid pattern rows = inl (map row_of (filter (like_hit uid pattern) rows)).
Proof.
  intros Hlen. apply Z.ltb_ge in Hlen.
  induction rows as [|d rows IH]; simpl; [reflexivity|].
  unfold like_hit at 1. destruct (d_user_id d =? uid)%Z; simpl; [|exact IH].
  unfold like. rewrite Hlen, IH. simpl.
  destruct (patternCompare _ _); reflexivity.
Qed.

Lemma search_ok (uid : Z) (q : str) (db : store) :
  sqlite_int uid = true ->
  (nbytes (like_pattern q) <= SQLITE_MAX_LIKE_PATTERN_LENGTH)%Z ->
  fst (search uid q db) =
  Ok (JDict [field "query" (JStr q);
             field "results"
               (JList (map result_json
                         (map row_of (filter (like_hit uid (like_pattern q))
                                             (documents db)))))]).
Proof.
  intros Hid Hlen. unfold search, select_documents_like, bind_int.
  rewrite Hid. simpl. rewrite (scan_like_ok uid _ (documents db) Hlen). reflexivity.
Qed.


Lemma like_hit_documents_of (uid : Z) (pattern : str) (db : store) (d : document_row) :
  In d (filter (like_hit uid pattern) (documents db)) <->
  In d (documents_of uid db) /\
  patternCompare (c_str pattern) (c_str (d_content d)) = true.
Proof.
  unfold documents_of, like_hit. rewrite !filter_In, andb_true_iff. tauto.
Qed.

(** ** C strings *)

Lemma c_str_no_nul (s : str) : ~ In 0%N (c_str s).
Proof.
  induction s as [|c s IH]; simpl; [tauto|].
  destruct (N.eqb c 0) eqn:E; simpl; [tauto|].
  apply N.eqb_neq in E. intros [H|H]; [congruence|tauto].
Qed.

Lemma c_str_id (s : str) : ~ In 0%N s -> c_str s = s.
Proof.
  induction s as [|c s IH]; simpl; intros H; [reflexivity|].
  destruct (N.eqb c 0) eqn:E.
  - apply N.eqb_eq in E. exfalso. apply H. left. exact E.
  - rewrite IH; [reflexivity|]. intros Hin. apply H. right. exact Hin.
Qed.

Lemma c_str_like_pattern (q : str) :
  ~ In 0%N q -> c_str (like_pattern q) = like_pattern q.
Proof.
  intros H. apply c_str_id. unfold like_pattern. simpl.
  intros [E|Hin]; [discriminate|].
  apply in_app_or in Hin. destruct Hin as [Hin|[E|[]]]; [tauto|discriminate].
Qed.

Lemma occurs_in_no_nul (q s : str) : occurs_in q s -> ~ In 0%N s -> ~ In 0%N q.
Proof.
  intros (before & after & ->) H Hin. apply H.
  apply in_or_app. right. apply in_or_app. left. exact Hin.
Qed.

(** ** Excerpts *)






(** ** Substrings *)



(** ** C1: what the search matches *)


(** ** C7: excerpts *)


(** ** C10: the empty query *)



(** ** ORDER BY created_at DESC *)

Lemma insert_desc_perm (m : message_row) (l : list message_row) :
  Permutation (insert_desc m l) (m :: l).
Proof.
  induction l as [|x l IH]; simpl.
  - apply Permutation_refl.
  - destruct (m_created_at x <=? m_created_at m)%Z.
    + apply Permutation_refl.
    + eapply Permutation_trans; [apply perm_skip; exact IH|apply perm_swap].
Qed.

Lemma order_by_perm (l : list message_row) :
  Permutation (order_by_created_at_desc l) l.
Proof.
  induction l as [|m l IH]; simpl.
  - apply Permutation_refl.
  - eapply Permutation_trans; [apply insert_desc_perm|].
    apply perm_skip. exact IH.
Qed.






(** ** The messages of a user along a trace *)





(** A chat call with a user id SQLite can hold succeeds. *)
Lemma chat_succeeds (clk : clock) (message : ChatMessage) (db : store) :
  sqlite_int (c_user_id message) = true ->
  status (fst (chat clk message db)) = 200%Z.
Proof.
  intros H. unfold chat, insert_message, bind_int. rewrite H. reflexivity.
Qed.

(** Along a trace every chat call whose user id SQLite can hold is answered
    200, so the chat calls counted below are the successful ones. *)
Lemma chat_calls_succeed (cfg : config) (trace : list (clock * http_request)) :
  forall db,
    Forall2 (fun e r => forall message,
               call (snd e) = POST_chat message ->
               sqlite_int (c_user_id message) = true ->
               status r = 200%Z)
            trace (fst (run cfg trace db)).
Proof.
  induction trace as [|[clk h] trace IH]; intros db; simpl.
  - constructor.
  - destruct (app cfg clk h db) as [r db'] eqn:E.
    specialize (IH db'). destruct (run cfg trace db') as [rs db'']. simpl in *.
    constructor; [|exact IH].
    intros message Hcall Hid. simpl in Hcall. unfold app in E. rewrite Hcall in E.
    simpl in E.
    pose proof (chat_succeeds clk message db Hid) as H. rewrite E in H. exact H.
Qed.

(** ** C2: the messages of a user, newest first *)


(** ** Documents *)

Lemma get_documents_ok (uid : Z) (db : store) :
  sqlite_int uid = true ->
  fst (get_documents uid db) =
  Ok (JDict [field "documents"
               (JList (map document_json
                         (map (fun d => (d_id d, d_filename d, d_created_at d))
                              (documents_of uid db))))]).
Proof.
  intros Hid. unfold get_documents, select_documents, bind_int. rewrite Hid. reflexivity.
Qed.

Lemma upload_ok (clk : clock) (uid : Z) (filename content : str) (db : store) :
  status (fst (upload_document clk uid filename content db)) = 200%Z ->
  sqlite_int uid = true /\
  documents (snd (upload_document clk uid filename content db)) =
  (documents db ++
   [mk_document (next_rowid (map d_id (documents db))) uid filename content (now clk)])%list.
Proof.
  unfold upload_document, insert_document, bind_int.
  destruct (sqlite_int uid); simpl; [|discriminate].
  intros _. split; reflexivity.
Qed.

Lemma document_json_keys (doc : Z * str * datetime) :
  keys (document_json doc) = ["id"; "filename"; "created_at"]%string.
Proof.
  destruct doc as [[id filename] created_at]. reflexivity.
Qed.

(** ** C6: an uploaded document is listed, without its content *)

(** C6. After a successful upload, whatever requests are served next, the
    document list of that user id contains the uploaded document, with the
    id it was given, its filename and its creation time; and every entry of
    the list has the keys id, filename and created_at and no other, so the
    content is never part of it. *)
Theorem upload_then_list (cfg : config) (clk : clock) (uid : Z) (filename content : str)
    (db : store) (trace : list (clock * http_request))
    (Hok : status (fst (upload_document clk uid filename content db)) = 200%Z) :
  exists id entries,
    fst (get_documents uid
           (snd (run cfg trace (snd (upload_document clk uid filename content db))))) =
      Ok (JDict [field "documents" (JList entries)]) /\
    In (JDict [field "id" (JInt id);
               field "filename" (JStr filename);
               field "created_at" (JTime (now clk))]) entries /\
    Forall (fun e => keys e = ["id"; "filename"; "created_at"]%string) entries.
Proof.
  apply upload_ok in Hok. destruct Hok as [Hid Hdocs].
  set (db' := snd (upload_document clk uid filename content db)) in *.
  set (row := mk_document (next_rowid (map d_id (documents db))) uid filename content
                          (now clk)) in *.
  destruct (run_extends cfg trace db') as (_ & _ & new & Hnew).
  set (db'' := snd (run cfg trace db')) in *.
  exists (d_id row). eexists. split; [apply get_documents_ok; exact Hid|]. split.
  - change (JDict [field "id" (JInt (d_id row)); field "filename" (JStr filename);
                   field "created_at" (JTime (now clk))])
      with (document_json ((fun d => (d_id d, d_filename d, d_created_at d)) row)).
    apply (in_map document_json).
    apply (in_map (fun d => (d_id d, d_filename d, d_created_at d)) _ row).
    unfold documents_of. apply filter_In. split.
    + rewrite Hnew, Hdocs. apply in_or_app. left. apply in_or_app. right. left. reflexivity.
    + simpl. apply Z.eqb_refl.
  - apply Forall_forall. intros e He. apply in_map_iff in He.
    destruct He as (doc & <- & _). apply document_json_keys.
Qed.

(** ** Integer columns *)

Lemma Forall_snoc {A} (P : A -> Prop) (l : list A) (x : A) :
  Forall P l -> P x -> Forall P (l ++ [x])%list.
Proof.
  intros Hl Hx. apply Forall_app. split; [exact Hl|]. constructor; [exact Hx|constructor].
Qed.

Lemma wrote_int_columns clk db r db' :
  int_columns db -> wrote clk db r db' -> int_columns db'.
Proof.
  intros [Hm Hd] Hw. destruct Hw as [r|rq db' E|m db' E|u fn c db' E].
  - split; assumption.
  - unfold insert_user in E. destruct (existsb _ _); [discriminate|].
    injection E as <-. split; assumption.
  - unfold insert_message, bind_int in E.
    destruct (sqlite_int (c_user_id m)) eqn:Hid; [|discriminate].
    injection E as <-. split; simpl; [|exact Hd]. apply Forall_snoc; assumption.
  - unfold insert_document, bind_int in E.
    destruct (sqlite_int u) eqn:Hid; [|discriminate].
    injection E as <-. split; simpl; [exact Hm|]. apply Forall_snoc; assumption.
Qed.

(** Every store the API builds from a fresh database keeps its integer
    columns within SQLite's range. *)
Lemma run_int_columns cfg trace db :
  int_columns db -> int_columns (snd (run cfg trace db)).
Proof.
  apply (run_invariant int_columns). apply wrote_int_columns.
Qed.

Lemma init_db_int_columns : int_columns init_db.
Proof. split; constructor. Qed.

(** ** Tokens and signup *)

(** The payload [create_token] signs: the email, the user id, and an
    expiry seven days after the clock reading. *)
Lemma create_token_payload (cfg : config) (clk : clock) (email : str) (user_id : Z) :
  p_email (jwt_payload (create_token cfg clk email user_id)) = email /\
  p_user_id (jwt_payload (create_token cfg clk email user_id)) = user_id /\
  p_exp (jwt_payload (create_token cfg clk email user_id)) =
    (utcnow clk + 7 * 86400 * 1000000)%Z /\
  jwt_key (create_token cfg clk email user_id) = JWT_SECRET cfg.
Proof.
  repeat split.
Qed.

Lemma find_new_user (rows : list user_row) (new : user_row) (email : str) :
  u_email new = email ->
  existsb (fun u => str_eqb (u_email u) email) rows = false ->
  find (fun u => str_eqb (u_email u) email) (rows ++ [new]) = Some new.
Proof.
  intros <-. induction rows as [|x rows IH]; simpl; intros H.
  - rewrite str_eqb_refl. reflexivity.
  - apply orb_false_iff in H. destruct H as [Hx H]. rewrite Hx. apply IH. exact H.
Qed.


(** ** The scenario of the specification *)

Example scenario_signup :
  signup default_config clk0 alice init_db =
  (token_response (create_token default_config clk0 (text "alice@x.com") 1) 1
                  (text "alice@x.com") (text "Alice"),
   db_alice).
Proof. reflexivity. Qed.

Example scenario_login :
  fst (login default_config clk1 (login_alice "p1") db_alice) =
  token_response (create_token default_config clk1 (text "alice@x.com") 1) 1
                 (text "alice@x.com") (text "Alice").
Proof. reflexivity. Qed.

Example scenario_login_wrong :
  fst (login default_config clk1 (login_alice "wrong") db_alice) =
  HTTPException 401 (text "Invalid email or password").
Proof. reflexivity. Qed.

(** [_] in a query stands for any character. *)
Example search_underscore :
  fst (search 1 (text "a_c") db_docs) =
  Ok (JDict [field "query" (JStr (text "a_c"));
             field "results"
               (JList [JDict [field "filename" (JStr (text "abc.txt"));
                              field "excerpt" (JStr (text "abc"))]])]).
Proof. reflexivity. Qed.

(** Content behind a NUL is not searched: [nul.txt] holds [abc] too. *)
Example search_behind_nul :
  fst (search 1 (text "abc") db_docs) =
  Ok (JDict [field "query" (JStr (text "abc"));
             field "results"
               (JList [JDict [field "filename" (JStr (text "abc.txt"));
                              field "excerpt" (JStr (text "abc"))]])]).
Proof. reflexivity. Qed.

(** A query of 49999 bytes makes a pattern of 50001, which SQLite refuses
    as soon as a row of the user is examined. *)
Example search_pattern_too_long :
  status (fst (search 1 (repeat 97%N (N.to_nat 49999)) db_docs)) = 500%Z /\
  status (fst (search 3 (repeat 97%N (N.to_nat 49999)) db_docs)) = 200%Z.
Proof. split; vm_compute; reflexivity. Qed.

(** A user id beyond 64 bits cannot be bound. *)
Example search_id_too_large :
  status (fst (search (2 ^ 63) [] db_docs)) = 500%Z.
Proof. reflexivity. Qed.

(** ** The claims at concrete inputs *)






Lemma upload_then_list_witness :
  status (fst (upload_document clk0 1 (text "notes.txt") (text "Hello World") init_db))
    = 200%Z /\
  exists id entries,
    fst (get_documents 1
           (snd (run default_config trace0
                   (snd (upload_document clk0 1 (text "notes.txt") (text "Hello World")
                                         init_db))))) =
      Ok (JDict [field "documents" (JList entries)]) /\
    In (JDict [field "id" (JInt id);
               field "filename" (JStr (text "notes.txt"));
               field "created_at" (JTime (now clk0))]) entries /\
    Forall (fun e => keys e = ["id"; "filename"; "created_at"]%string) entries.
Proof.
  split; [reflexivity|].
  apply (upload_then_list default_config clk0 1 (text "notes.txt") (text "Hello World")
                          init_db trace0).
  reflexivity.
Defined.



(* ================================================================= *)
(** * Further properties of the routes *)

(** ** What a request writes *)

Lemma insert_then_select email name password t db db' :
  insert_user email name password t db = inl db' ->
  users db' = (users db ++ [mk_user (next_rowid (map u_id (users db))) email name
                                    password t])%list /\
  messages db' = messages db /\
  documents db' = documents db /\
  select_user_by_email email db' =
    Some (mk_user (next_rowid (map u_id (users db))) email name password t).
Proof.
  unfold insert_user. destruct (existsb _ _) eqn:E; [discriminate|].
  intros H. injection H as <-. simpl. repeat split.
  unfold select_user_by_email. simpl.
  apply find_new_user; [reflexivity|exact E].
Qed.

Lemma insert_message_inl uid msg resp t db db' :
  insert_message uid msg resp t db = inl db' ->
  sqlite_int uid = true /\
  db' = mk_store (users db)
                 (messages db ++ [mk_message (next_rowid (map m_id (messages db))) uid
                                             msg resp t])
                 (documents db).
Proof.
  unfold insert_message, bind_int. destruct (sqlite_int uid); [|discriminate].
  simpl. intros H. injection H as <-. split; reflexivity.
Qed.

Lemma insert_document_inl uid fn content t db db' :
  insert_document uid fn content t db = inl db' ->
  sqlite_int uid = true /\
  db' = mk_store (users db) (messages db)
                 (documents db ++ [mk_document (next_rowid (map d_id (documents db))) uid
                                               fn content t]).
Proof.
  unfold insert_document, bind_int. destruct (sqlite_int uid); [|discriminate].
  simpl. intros H. injection H as <-. split; reflexivity.
Qed.

(** The routes that read. *)
Lemma read_only (cfg : config) (clk : clock) (db : store) :
  (forall rq, snd (login cfg clk rq db) = db) /\
  (forall uid, snd (get_messages uid db) = db) /\
  (forall uid, snd (get_documents uid db) = db) /\
  (forall uid q, snd (search uid q db) = db).
Proof.
  repeat split; intros.
  - unfold login. destruct (select_user_by_email _ db); [|reflexivity].
    destruct (negb _); reflexivity.
  - unfold get_messages. destruct (select_messages _ db); reflexivity.
  - unfold get_documents. destruct (select_documents _ db); reflexivity.
  - unfold search. destruct (select_documents_like _ _ db); reflexivity.
Qed.

Lemma handle_frame (cfg : config) (clk : clock) (r : request) (db : store) :
  match r with
  | POST_signup _ =>
      (users (snd (handle cfg clk r db)) = users db \/
       exists row, users (snd (handle cfg clk r db)) = users db ++ [row])%list /\
      messages (snd (handle cfg clk r db)) = messages db /\
      documents (snd (handle cfg clk r db)) = documents db
  | POST_chat _ =>
      users (snd (handle cfg clk r db)) = users db /\
      (messages (snd (handle cfg clk r db)) = messages db \/
       exists row, messages (snd (handle cfg clk r db)) = messages db ++ [row])%list /\
      documents (snd (handle cfg clk r db)) = documents db
  | POST_upload _ _ _ =>
      users (snd (handle cfg clk r db)) = users db /\
      messages (snd (handle cfg clk r db)) = messages db /\
      (documents (snd (handle cfg clk r db)) = documents db \/
       exists row, documents (snd (handle cfg clk r db)) = documents db ++ [row])%list
  | _ => snd (handle cfg clk r db) = db
  end.
Proof.
  destruct (read_only cfg clk db) as (Hlogin & Hmsgs & Hdocs & Hsearch).
  destruct r as [| |rq|rq|m|u|u fn c|u|u q]; simpl; auto.
  - unfold signup.
    destruct (insert_user _ _ _ _ db) as [db'|[msg|msg]] eqn:E; simpl; auto.
    apply insert_then_select in E. destruct E as (Hu & Hm & Hd & Hsel).
    rewrite Hsel. simpl. repeat split; trivial. right. eexists. exact Hu.
  - unfold chat.
    destruct (insert_message _ _ _ _ db) as [db'|e] eqn:E; simpl; auto.
    apply insert_message_inl in E. destruct E as [_ ->]. simpl.
    repeat split. right. eexists. reflexivity.
  - unfold upload_document.
    destruct (insert_document _ _ _ _ db) as [db'|e] eqn:E; simpl; auto.
    apply insert_document_inl in E. destruct E as [_ ->]. simpl.
    repeat split. right. eexists. reflexivity.
Qed.

(** Each route writes to its own table only, and one row at most: signup
    to users, chat to messages, upload to documents; every other route
    leaves the store as it found it. *)
Theorem routes_write_own_table (cfg : config) (clk : clock) (r : request) (db : store) :
  match r with
  | POST_signup _ =>
      (users (snd (handle cfg clk r db)) = users db \/
       exists row, users (snd (handle cfg clk r db)) = users db ++ [row])%list /\
      messages (snd (handle cfg clk r db)) = messages db /\
      documents (snd (handle cfg clk r db)) = documents db
  | POST_chat _ =>
      users (snd (handle cfg clk r db)) = users db /\
      (messages (snd (handle cfg clk r db)) = messages db \/
       exists row, messages (snd (handle cfg clk r db)) = messages db ++ [row])%list /\
      documents (snd (handle cfg clk r db)) = documents db
  | POST_upload _ _ _ =>
      users (snd (handle cfg clk r db)) = users db /\
      messages (snd (handle cfg clk r db)) = messages db /\
      (documents (snd (handle cfg clk r db)) = documents db \/
       exists row, documents (snd (handle cfg clk r db)) = documents db ++ [row])%list
  | _ => snd (handle cfg clk r db) = db
  end.
Proof.
  exact (handle_frame cfg clk r db).
Qed.



(** ** When the search fails *)

Lemma scan_like_long (uid : Z) (pattern : str) (rows : list document_row) :
  (SQLITE_MAX_LIKE_PATTERN_LENGTH < nbytes pattern)%Z ->
  scan_like uid pattern rows =
  match filter (fun d => (d_user_id d =? uid)%Z) rows with
  | [] => inl []
  | _ :: _ => inr (Exception (text "LIKE or GLOB pattern too complex"))
  end.
Proof.
  intros Hlen. apply Z.ltb_lt in Hlen.
  induction rows as [|d rows IH]; simpl; [reflexivity|].
  destruct (d_user_id d =? uid)%Z; [|exact IH].
  unfold like. rewrite Hlen. reflexivity.
Qed.

(** The search answers 200 or 500, and 500 in two cases only: the user id
    does not fit a 64-bit integer, or the pattern [%query%] takes more than
    50000 bytes and the user has at least one document. *)
Theorem search_status (uid : Z) (q : str) (db : store) :
  (status (fst (search uid q db)) = 200%Z \/ status (fst (search uid q db)) = 500%Z) /\
  (status (fst (search uid q db)) = 500%Z <->
   sqlite_int uid = false \/
   ((SQLITE_MAX_LIKE_PATTERN_LENGTH < nbytes (like_pattern q))%Z /\
    documents_of uid db <> [])).
Proof.
  unfold search, select_documents_like, bind_int.
  destruct (sqlite_int uid) eqn:Hid; simpl.
  - destruct (Z.ltb_spec SQLITE_MAX_LIKE_PATTERN_LENGTH (nbytes (like_pattern q)))
      as [Hlong|Hshort].
    + rewrite (scan_like_long uid _ (documents db) Hlong). fold (documents_of uid db).
      destruct (documents_of uid db) as [|d l]; simpl.
      * split; [left; reflexivity|]. split; [discriminate|].
        intros [H|[_ H]]; [discriminate|]. exfalso. apply H. reflexivity.
      * split; [right; reflexivity|]. split; [|reflexivity].
        intros _. right. split; [exact Hlong|discriminate].
    + rewrite (scan_like_ok uid _ (documents db) Hshort). simpl.
      split; [left; reflexivity|]. split; [discriminate|].
      intros [H|[H _]]; [discriminate|]. exfalso.
      apply (Z.lt_irrefl (nbytes (like_pattern q))).
      eapply Z.le_lt_trans; eassumption.
  - split; [right; reflexivity|]. split; [|reflexivity]. intros _. left. reflexivity.
Qed.

(** ** One user's rows and another user's requests *)

Lemma scan_like_filter (uid : Z) (pattern : str) (rows : list document_row) :
  scan_like uid pattern rows =
  scan_like uid pattern (filter (fun d => (d_user_id d =? uid)%Z) rows).
Proof.
  induction rows as [|d rows IH]; simpl; [reflexivity|].
  destruct (d_user_id d =? uid)%Z eqn:E; simpl; [|exact IH].
  rewrite E, IH. reflexivity.
Qed.

(** What the three listings of a user answer is decided by the rows of
    that user. *)
Lemma listings_of_own_rows (uid : Z) (db1 db2 : store) :
  messages_of uid db1 = messages_of uid db2 ->
  documents_of uid db1 = documents_of uid db2 ->
  fst (get_messages uid db1) = fst (get_messages uid db2) /\
  fst (get_documents uid db1) = fst (get_documents uid db2) /\
  forall q, fst (search uid q db1) = fst (search uid q db2).
Proof.
  intros Hm Hd. repeat split.
  - unfold get_messages, select_messages, bind_int.
    destruct (sqlite_int uid); simpl; [rewrite Hm|]; reflexivity.
  - unfold get_documents, select_documents, bind_int.
    destruct (sqlite_int uid); simpl; [rewrite Hd|]; reflexivity.
  - intros q. unfold search, select_documents_like, bind_int.
    destruct (sqlite_int uid); simpl; [|reflexivity].
    rewrite (scan_like_filter uid _ (documents db1)).
    rewrite (scan_like_filter uid _ (documents db2)).
    unfold documents_of in Hd. rewrite Hd.
    destruct (scan_like uid _ _); reflexivity.
Qed.

Lemma filter_snoc_out {A} (f : A -> bool) (l : list A) (x : A) :
  f x = false -> filter f (l ++ [x])%list = filter f l.
Proof.
  intros H. rewrite filter_app. simpl. rewrite H. apply app_nil_r.
Qed.

Lemma handle_other_user (cfg : config) (clk : clock) (r : request) (db : store) (uid : Z) :
  touches uid r = false ->
  messages_of uid (snd (handle cfg clk r db)) = messages_of uid db /\
  documents_of uid (snd (handle cfg clk r db)) = documents_of uid db.
Proof.
  intros Ht. pose proof (handle_frame cfg clk r db) as Hframe.
  destruct r as [| |rq|rq|m|u|u fn c|u|u q]; simpl in Ht;
    try (rewrite Hframe; split; reflexivity).
  - destruct Hframe as (_ & Hm & Hd). unfold messages_of, documents_of.
    rewrite Hm, Hd. split; reflexivity.
  - simpl. unfold chat.
    destruct (insert_message _ _ _ _ db) as [db'|e] eqn:E; simpl; [|split; reflexivity].
    apply insert_message_inl in E. destruct E as [_ ->].
    unfold messages_of, documents_of. simpl. split; [|reflexivity].
    apply filter_snoc_out. exact Ht.
  - simpl. unfold upload_document.
    destruct (insert_document _ _ _ _ db) as [db'|e] eqn:E; simpl; [|split; reflexivity].
    apply insert_document_inl in E. destruct E as [_ ->].
    unfold messages_of, documents_of. simpl. split; [reflexivity|].
    apply filter_snoc_out. exact Ht.
Qed.

Lemma run_other_users (cfg : config) (trace : list (clock * http_request)) (uid : Z) :
  Forall (fun e => touches uid (call (snd e)) = false) trace ->
  forall db,
    messages_of uid (snd (run cfg trace db)) = messages_of uid db /\
    documents_of uid (snd (run cfg trace db)) = documents_of uid db.
Proof.
  induction 1 as [|[clk h] trace Hh Htrace IH]; intros db; simpl.
  - split; reflexivity.
  - unfold app. pose proof (handle_other_user cfg clk (call h) db uid Hh) as [Hm Hd].
    destruct (handle cfg clk (call h) db) as [r db']. simpl in Hm, Hd.
    specialize (IH db'). destruct (run cfg trace db') as [rs db'']. simpl in *.
    destruct IH as [IHm IHd]. split; congruence.
Qed.

(** Requests that add no row for a user id change nothing of what that
    user's three listings answer: the messages, the documents and every
    search are as they were before the trace. *)
Theorem other_users_do_not_interfere (cfg : config) (trace : list (clock * http_request))
    (uid : Z) (db : store)
    (Hother : Forall (fun e => touches uid (call (snd e)) = false) trace) :
  fst (get_messages uid (snd (run cfg trace db))) = fst (get_messages uid db) /\
  fst (get_documents uid (snd (run cfg trace db))) = fst (get_documents uid db) /\
  forall q, fst (search uid q (snd (run cfg trace db))) = fst (search uid q db).
Proof.
  destruct (run_other_users cfg trace uid Hother db) as [Hm Hd].
  apply listings_of_own_rows; assumption.
Qed.

(** ** The case of the query *)

Ltac compare_chars :=
  unfold char_match, sqlite3Tolower, matchAll, matchOne, utf8_len in *;
  repeat match goal with
         | H : context [N.eqb ?a ?b] |- _ => destruct (N.eqb_spec a b)
         | H : context [N.leb ?a ?b] |- _ => destruct (N.leb_spec a b)
         | H : context [N.ltb ?a ?b] |- _ => destruct (N.ltb_spec a b)
         | |- context [N.eqb ?a ?b] => destruct (N.eqb_spec a b)
         | |- context [N.leb ?a ?b] => destruct (N.leb_spec a b)
         | |- context [N.ltb ?a ?b] => destruct (N.ltb_spec a b)
         end;
  simpl in *; try reflexivity; try discriminate; try lia.

Lemma char_match_same (c c' x : char) :
  char_match c c' = true -> char_match c x = char_match c' x.
Proof. intros H. compare_chars. Qed.

Lemma char_match_wildcards (c c' : char) :
  char_match c c' = true ->
  N.eqb c matchAll = N.eqb c' matchAll /\
  N.eqb c matchOne = N.eqb c' matchOne /\
  N.eqb c 0 = N.eqb c' 0 /\
  utf8_len c = utf8_len c'.
Proof. intros H. repeat split; compare_chars. Qed.

Lemma patternCompare_same (p p' : str) :
  same_letters p p' -> forall z, patternCompare p z = patternCompare p' z.
Proof.
  induction 1 as [|c c' p p' Hc Hp IH]; intros z; [reflexivity|].
  destruct (char_match_wildcards c c' Hc) as (Hall & Hone & _ & _).
  destruct (N.eq_dec c matchAll) as [->|Hne].
  - rewrite N.eqb_refl in Hall. symmetry in Hall. apply N.eqb_eq in Hall. subst c'.
    induction z as [|x z IHz]; rewrite (patternCompare_star p), (patternCompare_star p').
    + rewrite IH. reflexivity.
    + rewrite IH, IHz. reflexivity.
  - assert (c' <> matchAll) as Hne'.
    { apply N.eqb_neq. rewrite <- Hall. apply N.eqb_neq. exact Hne. }
    destruct z as [|x z].
    + rewrite !patternCompare_char_nil by assumption. reflexivity.
    + rewrite !patternCompare_char by assumption.
      rewrite (char_match_same c c' x Hc), Hone, IH. reflexivity.
Qed.

Lemma c_str_same (q q' : str) : same_letters q q' -> same_letters (c_str q) (c_str q').
Proof.
  induction 1 as [|c c' q q' Hc Hq IH]; simpl; [constructor|].
  destruct (char_match_wildcards c c' Hc) as (_ & _ & Hnul & _). rewrite <- Hnul.
  destruct (N.eqb c 0); constructor; assumption.
Qed.

Lemma nbytes_same (q q' : str) : same_letters q q' -> nbytes q = nbytes q'.
Proof.
  induction 1 as [|c c' q q' Hc Hq IH]; simpl; [reflexivity|].
  destruct (char_match_wildcards c c' Hc) as (_ & _ & _ & Hlen). congruence.
Qed.

Lemma like_pattern_same (q q' : str) :
  same_letters q q' -> same_letters (like_pattern q) (like_pattern q').
Proof.
  intros H. unfold like_pattern. constructor; [apply char_match_refl|].
  apply Forall2_app; [exact H|]. constructor; [apply char_match_refl|constructor].
Qed.

Lemma scan_like_same (uid : Z) (p p' : str) (rows : list document_row) :
  same_letters p p' -> scan_like uid p rows = scan_like uid p' rows.
Proof.
  intros H. induction rows as [|d rows IH]; simpl; [reflexivity|].
  rewrite IH. unfold like. rewrite (nbytes_same p p' H).
  rewrite (patternCompare_same _ _ (c_str_same p p' H)). reflexivity.
Qed.

(** The search does not see the case of the ASCII letters of the query:
    two queries that differ in nothing else get the same status and the
    same result list. *)
Theorem search_ignores_query_case (uid : Z) (q q' : str) (db : store)
    (Hsame : same_letters q q') :
  status (fst (search uid q db)) = status (fst (search uid q' db)) /\
  results_of (fst (search uid q db)) = results_of (fst (search uid q' db)).
Proof.
  unfold search, select_documents_like, bind_int.
  destruct (sqlite_int uid); simpl; [|split; reflexivity].
  rewrite (scan_like_same uid _ _ (documents db) (like_pattern_same q q' Hsame)).
  destruct (scan_like uid (like_pattern q') (documents db)); simpl; split; reflexivity.
Qed.

(** ** Uploads, listed and searched *)

(** An uploaded document is found by every query that occurs in its content
    before the first NUL, as long as the pattern [%query%] takes at most
    50000 bytes, whatever requests were served in between; the entry found
    carries the filename and the excerpt of the content. *)
Theorem upload_then_search (cfg : config) (clk : clock) (uid : Z)
    (filename content q : str) (db : store) (trace : list (clock * http_request))
    (Hok : status (fst (upload_document clk uid filename content db)) = 200%Z)
    (Hocc : occurs_in q (c_str content))
    (Hlen : (nbytes (like_pattern q) <= SQLITE_MAX_LIKE_PATTERN_LENGTH)%Z) :
  exists results,
    fst (search uid q
           (snd (run cfg trace (snd (upload_document clk uid filename content db))))) =
      Ok (JDict [field "query" (JStr q); field "results" (JList results)]) /\
    In (JDict [field "filename" (JStr filename);
               field "excerpt" (JStr (excerpt content))]) results.
Proof.
  apply upload_ok in Hok. destruct Hok as [Hid Hdocs].
  set (db' := snd (upload_document clk uid filename content db)) in *.
  set (row := mk_document (next_rowid (map d_id (documents db))) uid filename content
                          (now clk)) in *.
  destruct (run_extends cfg trace db') as (_ & _ & new & Hnew).
  set (db'' := snd (run cfg trace db')) in *.
  eexists. split; [apply search_ok; assumption|].
  change (JDict [field "filename" (JStr filename); field "excerpt" (JStr (excerpt content))])
    with (result_json (row_of row)).
  apply (in_map result_json). apply (in_map row_of).
  apply like_hit_documents_of. split.
  - unfold documents_of. apply filter_In. split.
    + rewrite Hnew, Hdocs. apply in_or_app. left. apply in_or_app. right. left. reflexivity.
    + simpl. apply Z.eqb_refl.
  - rewrite c_str_like_pattern.
    + apply patternCompare_occurs. exact Hocc.
    + apply (occurs_in_no_nul q (c_str content) Hocc). apply c_str_no_nul.
Qed.

Lemma app_documents_of (cfg : config) (clk : clock) (h : http_request) (db : store)
    (uid : Z) :
  sqlite_int uid = true ->
  map document_cols (documents_of uid (snd (app cfg clk h db))) =
  (map document_cols (documents_of uid db) ++ upload_call uid (clk, h))%list.
Proof.
  intros Hid. unfold app, upload_call. simpl.
  pose proof (handle_frame cfg clk (call h) db) as Hframe.
  destruct (call h) as [| |rq|rq|m|u|u fn c|u|u q];
    try (rewrite Hframe; symmetry; apply app_nil_r).
  - destruct Hframe as (_ & _ & Hd). unfold documents_of. rewrite Hd.
    symmetry. apply app_nil_r.
  - destruct Hframe as (_ & _ & Hd). unfold documents_of. rewrite Hd.
    symmetry. apply app_nil_r.
  - clear Hframe. simpl. unfold upload_document, insert_document, bind_int.
    destruct (sqlite_int u) eqn:Hu; simpl.
    + unfold documents_of. simpl. rewrite filter_app, map_app. simpl.
      destruct (u =? uid)%Z; reflexivity.
    + destruct (u =? uid)%Z eqn:E.
      * apply Z.eqb_eq in E. congruence.
      * symmetry. apply app_nil_r.
Qed.

Lemma run_documents_of (cfg : config) (trace : list (clock * http_request)) (uid : Z) :
  sqlite_int uid = true ->
  forall db,
    map document_cols (documents_of uid (snd (run cfg trace db))) =
    (map document_cols (documents_of uid db) ++ upload_calls uid trace)%list.
Proof.
  intros Hid. induction trace as [|[clk h] trace IH]; intros db; simpl.
  - symmetry. apply app_nil_r.
  - pose proof (app_documents_of cfg clk h db uid Hid) as H.
    destruct (app cfg clk h db) as [r db']. simpl in H.
    specialize (IH db'). destruct (run cfg trace db') as [rs db'']. simpl in *.
    rewrite IH, H. symmetry. apply app_assoc.
Qed.

(** Start from a store with no document for a user id that fits a 64-bit
    integer and serve any sequence of requests.  The document list of the id
    then has one entry per upload made with the id, in the order of the
    uploads (oldest first), each with the filename and the time of its
    upload. *)
Theorem documents_in_upload_order (cfg : config) (trace : list (clock * http_request))
    (db : store) (uid : Z)
    (Hid : sqlite_int uid = true)
    (Hfresh : documents_of uid db = []) :
  exists docs,
    fst (get_documents uid (snd (run cfg trace db))) =
      Ok (JDict [field "documents" (JList (map document_json docs))]) /\
    map (fun d => (snd (fst d), snd d)) docs = upload_calls uid trace.
Proof.
  pose proof (run_documents_of cfg trace uid Hid db) as Hrun.
  rewrite Hfresh in Hrun. simpl in Hrun.
  eexists. split; [apply get_documents_ok; exact Hid|].
  rewrite map_map. exact Hrun.
Qed.

(** ** Accounts *)


Lemma signup_ok_inv (cfg : config) (clk : clock) (request : SignupRequest) (db : store) :
  status (fst (signup cfg clk request db)) = 200%Z ->
  insert_user (s_email request) (s_name request) (s_password request) (now clk) db =
    inl (snd (signup cfg clk request db)).
Proof.
  unfold signup.
  destruct (insert_user _ _ _ _ db) as [db'|[msg|msg]] eqn:E; simpl; try discriminate.
  pose proof (insert_then_select _ _ _ _ _ _ E) as (_ & _ & _ & Hsel).
  rewrite Hsel. reflexivity.
Qed.

Lemma signed_up_row (cfg : config) (clk : clock) (request : SignupRequest) (db : store)
    (trace : list (clock * http_request)) :
  status (fst (signup cfg clk request db)) = 200%Z ->
  In (mk_user (next_rowid (map u_id (users db))) (s_email request) (s_name request)
              (s_password request) (now clk))
     (users (snd (run cfg trace (snd (signup cfg clk request db))))).
Proof.
  intros Hok. apply signup_ok_inv in Hok.
  apply insert_then_select in Hok. destruct Hok as (Hu & _).
  destruct (run_extends cfg trace (snd (signup cfg clk request db))) as ((new & Hnew) & _).
  rewrite Hnew, Hu. apply in_or_app. left. apply in_or_app. right. left. reflexivity.
Qed.

(** Who has signed up can log in: after a successful signup, and whatever
    requests were served since, a login with the email and the password of
    the signup is answered 200 with a token for the id the signup gave. *)
Theorem signup_then_login (cfg : config) (clk clk' : clock) (request : SignupRequest)
    (db : store) (trace : list (clock * http_request))
    (Hunique : unique_emails db)
    (Hok : status (fst (signup cfg clk request db)) = 200%Z) :
  status (fst (login cfg clk' (mk_login (s_email request) (s_password request))
                     (snd (run cfg trace (snd (signup cfg clk request db)))))) = 200%Z /\
  access_token (fst (login cfg clk' (mk_login (s_email request) (s_password request))
                           (snd (run cfg trace (snd (signup cfg clk request db)))))) =
    Some (create_token cfg clk' (s_email request) (next_rowid (map u_id (users db)))).
Proof.
  pose proof (signed_up_row cfg clk request db trace Hok) as Hin.
  assert (unique_emails (snd (run cfg trace (snd (signup cfg clk request db))))) as Hu.
  { apply run_unique_emails. apply signup_ok_inv in Hok.
    eapply insert_user_unique; eassumption. }
  set (final := snd (run cfg trace (snd (signup cfg clk request db)))) in *.
  set (row := mk_user (next_rowid (map u_id (users db))) (s_email request)
                      (s_name request) (s_password request) (now clk)) in *.
  assert (find (fun u => str_eqb (u_email u) (s_email request)) (users final) = Some row)
    as Hfind.
  { exact (find_by_unique_email (users final) row Hu Hin). }
  unfold login, select_user_by_email. cbn [l_email l_password].
  rewrite Hfind. cbn [u_password row]. rewrite str_eqb_refl. simpl. split; reflexivity.
Qed.


(** A login is answered 200 only for credentials that are stored: some row
    of the users table has the email and exactly the password of the
    request, and the token is for the request's email and that row's id. *)
Theorem login_needs_stored_credentials (cfg : config) (clk : clock)
    (request : LoginRequest) (db : store)
    (Hok : status (fst (login cfg clk request db)) = 200%Z) :
  exists u,
    In u (users db) /\
    u_email u = l_email request /\
    u_password u = l_password request /\
    access_token (fst (login cfg clk request db)) =
      Some (create_token cfg clk (l_email request) (u_id u)).
Proof.
  unfold login, select_user_by_email in *.
  destruct (find _ (users db)) as [u|] eqn:E; [|discriminate].
  apply find_some in E. destruct E as [Hin Hemail]. apply str_eqb_eq in Hemail.
  destruct (str_eqb (u_password u) (l_password request)) eqn:Hpw; [|discriminate].
  apply str_eqb_eq in Hpw. exists u. simpl. repeat split; assumption.
Qed.

(** No request makes two users share an email. *)
Theorem emails_stay_unique (cfg : config) (trace : list (clock * http_request))
    (db : store) (Hunique : unique_emails db) :
  NoDup (map u_email (users (snd (run cfg trace db)))).
Proof.
  exact (run_unique_emails cfg trace db Hunique).
Qed.

(** ** Rowids *)

Lemma consecutive_S (n : nat) :
  consecutive (S n) = (consecutive n ++ [Z.of_nat (S n)])%list.
Proof.
  unfold consecutive. rewrite seq_S, map_app. reflexivity.
Qed.

Lemma max_snoc (l : list Z) (x : Z) :
  (0 <= x)%Z ->
  fold_right Z.max 0%Z (l ++ [x]) = Z.max (fold_right Z.max 0%Z l) x.
Proof.
  intros Hx. induction l as [|a l IH]; simpl.
  - lia.
  - rewrite IH. lia.
Qed.

Lemma max_consecutive (n : nat) : fold_right Z.max 0%Z (consecutive n) = Z.of_nat n.
Proof.
  induction n as [|n IH]; [reflexivity|].
  rewrite consecutive_S, max_snoc by lia. rewrite IH. lia.
Qed.

Lemma next_rowid_counts {A} (id : A -> Z) (rows : list A) :
  map id rows = consecutive (List.length rows) ->
  next_rowid (map id rows) = Z.of_nat (S (List.length rows)).
Proof.
  intros H. unfold next_rowid. rewrite H, max_consecutive. lia.
Qed.

Lemma numbered_snoc {A} (id : A -> Z) (rows : list A) (row : A) :
  map id rows = consecutive (List.length rows) ->
  id row = next_rowid (map id rows) ->
  map id (rows ++ [row]) = consecutive (List.length (rows ++ [row])).
Proof.
  intros H Hrow. rewrite map_app, length_app. simpl.
  rewrite Nat.add_1_r, consecutive_S, Hrow, (next_rowid_counts id rows H), <- H.
  reflexivity.
Qed.

Lemma wrote_numbered clk db r db' : numbered db -> wrote clk db r db' -> numbered db'.
Proof.
  intros (Hu & Hm & Hd) Hw. destruct Hw as [r|rq db' E|m db' E|u fn c db' E].
  - repeat split; assumption.
  - apply insert_then_select in E. destruct E as (Eu & Em & Ed & _).
    unfold numbered. rewrite Eu, Em, Ed. repeat split; trivial.
    apply numbered_snoc; [exact Hu|reflexivity].
  - apply insert_message_inl in E. destruct E as [_ ->].
    unfold numbered. simpl. repeat split; trivial.
    apply numbered_snoc; [exact Hm|reflexivity].
  - apply insert_document_inl in E. destruct E as [_ ->].
    unfold numbered. simpl. repeat split; trivial.
    apply numbered_snoc; [exact Hd|reflexivity].
Qed.

(** In every store the API builds from a fresh database the ids of each
    table are 1, 2, ..., n in insertion order: ids are never reused, never
    skipped, and the next row gets the number of rows plus one. *)
Theorem rowids_count_rows (cfg : config) (trace : list (clock * http_request)) :
  map u_id (users (snd (run cfg trace (startup None)))) =
    consecutive (List.length (users (snd (run cfg trace (startup None))))) /\
  map m_id (messages (snd (run cfg trace (startup None)))) =
    consecutive (List.length (messages (snd (run cfg trace (startup None))))) /\
  map d_id (documents (snd (run cfg trace (startup None)))) =
    consecutive (List.length (documents (snd (run cfg trace (startup None))))).
Proof.
  apply (run_invariant numbered wrote_numbered cfg trace (startup None)).
  repeat split.
Qed.

(** ** The response template *)

Lemma wrote_templated clk db r db' : templated db -> wrote clk db r db' -> templated db'.
Proof.
  unfold templated. intros H Hw. destruct Hw as [r|rq db' E|m db' E|u fn c db' E].
  - exact H.
  - apply insert_then_select in E. destruct E as (_ & Em & _). rewrite Em. exact H.
  - apply insert_message_inl in E. destruct E as [_ ->]. simpl.
    apply Forall_snoc; [exact H|reflexivity].
  - apply insert_document_inl in E. destruct E as [_ ->]. exact H.
Qed.

(** Once every stored response is the template applied to its message, it
    stays so: after any requests, each entry of any user's message list
    pairs a message with the response [Response to: ] followed by that very
    message. *)
Theorem responses_follow_template (cfg : config) (trace : list (clock * http_request))
    (db : store) (uid : Z) (entries : list json)
    (Htemplate : templated db)
    (Hget : fst (get_messages uid (snd (run cfg trace db))) =
              Ok (JDict [field "messages" (JList entries)])) :
  Forall (fun e => exists message created_at,
            e = JDict [field "message" (JStr message);
                       field "response"
                         (JStr (text "Response to: " ++ message)%list);
                       field "created_at" (JTime created_at)])
         entries.
Proof.
  pose proof (run_invariant templated wrote_templated cfg trace db Htemplate) as Ht.
  set (final := snd (run cfg trace db)) in *.
  unfold get_messages, select_messages, bind_int in Hget.
  destruct (sqlite_int uid); simpl in Hget; [|discriminate].
  injection Hget as <-. apply Forall_forall. intros e He.
  rewrite map_map in He. apply in_map_iff in He. destruct He as (m & <- & Hm).
  apply (Permutation_in _ (order_by_perm _)) in Hm.
  unfold messages_of in Hm. apply filter_In in Hm. destruct Hm as [Hm _].
  unfold templated in Ht. rewrite Forall_forall in Ht. specialize (Ht m Hm).
  exists (m_message m), (m_created_at m). simpl. rewrite Ht. reflexivity.
Qed.

(** ** The further properties at concrete inputs *)


Lemma other_users_do_not_interfere_witness :
  Forall (fun e => touches 1 (call (snd e)) = false) trace_other /\
  fst (get_documents 1 (snd (run default_config trace_other db_docs))) =
    fst (get_documents 1 db_docs).
Proof.
  assert (Forall (fun e => touches 1 (call (snd e)) = false) trace_other) as H.
  { repeat constructor. }
  split; [exact H|].
  exact (proj1 (proj2 (other_users_do_not_interfere default_config trace_other 1
                                                    db_docs H))).
Defined.

Lemma search_ignores_query_case_witness :
  same_letters (text "hello") (text "HeLLo") /\
  results_of (fst (search 1 (text "hello") db_hello)) =
    results_of (fst (search 1 (text "HeLLo") db_hello)).
Proof.
  assert (same_letters (text "hello") (text "HeLLo")) as H.
  { repeat (constructor; try reflexivity). }
  split; [exact H|].
  exact (proj2 (search_ignores_query_case 1 (text "hello") (text "HeLLo") db_hello H)).
Defined.

Lemma upload_then_search_witness :
  status (fst (upload_document clk0 1 (text "notes.txt") (text "Hello World") init_db))
    = 200%Z /\
  occurs_in (text "World") (c_str (text "Hello World")) /\
  (nbytes (like_pattern (text "World")) <= SQLITE_MAX_LIKE_PATTERN_LENGTH)%Z /\
  exists results,
    fst (search 1 (text "World")
           (snd (run default_config trace0
                   (snd (upload_document clk0 1 (text "notes.txt") (text "Hello World")
                                         init_db))))) =
      Ok (JDict [field "query" (JStr (text "World")); field "results" (JList results)]) /\
    In (JDict [field "filename" (JStr (text "notes.txt"));
               field "excerpt" (JStr (excerpt (text "Hello World")))]) results.
Proof.
  assert (occurs_in (text "World") (c_str (text "Hello World"))) as Hocc.
  { exists (text "Hello "), []. reflexivity. }
  assert (nbytes (like_pattern (text "World")) <= SQLITE_MAX_LIKE_PATTERN_LENGTH)%Z
    as Hlen.
  { vm_compute. discriminate. }
  split; [reflexivity|]. split; [exact Hocc|]. split; [exact Hlen|].
  exact (upload_then_search default_config clk0 1 (text "notes.txt") (text "Hello World")
                            (text "World") init_db trace0 eq_refl Hocc Hlen).
Defined.

Lemma documents_in_upload_order_witness :
  sqlite_int 1 = true /\
  documents_of 1 init_db = [] /\
  exists docs,
    fst (get_documents 1 (snd (run default_config trace_uploads init_db))) =
      Ok (JDict [field "documents" (JList (map document_json docs))]) /\
    map (fun d => (snd (fst d), snd d)) docs =
      [(text "a.txt", 1000%Z); (text "c.txt", 5000%Z)].
Proof.
  split; [reflexivity|]. split; [reflexivity|].
  exact (documents_in_upload_order default_config trace_uploads init_db 1 eq_refl eq_refl).
Defined.


Lemma signup_then_login_witness :
  unique_emails init_db /\
  status (fst (signup default_config clk0 alice init_db)) = 200%Z /\
  status (fst (login default_config clk1 (mk_login (s_email alice) (s_password alice))
                     (snd (run default_config trace0
                             (snd (signup default_config clk0 alice init_db))))))
    = 200%Z.
Proof.
  assert (unique_emails init_db) as H by constructor.
  split; [exact H|]. split; [reflexivity|].
  exact (proj1 (signup_then_login default_config clk0 clk1 alice init_db trace0 H
                                  eq_refl)).
Defined.


Lemma login_needs_stored_credentials_witness :
  status (fst (login default_config clk1 (login_alice "p1") db_alice)) = 200%Z /\
  exists u,
    In u (users db_alice) /\
    u_email u = l_email (login_alice "p1") /\
    u_password u = l_password (login_alice "p1") /\
    access_token (fst (login default_config clk1 (login_alice "p1") db_alice)) =
      Some (create_token default_config clk1 (l_email (login_alice "p1")) (u_id u)).
Proof.
  split; [reflexivity|].
  exact (login_needs_stored_credentials default_config clk1 (login_alice "p1") db_alice
                                        eq_refl).
Defined.

Lemma emails_stay_unique_witness :
  unique_emails init_db /\
  NoDup (map u_email (users (snd (run default_config trace_other init_db)))).
Proof.
  assert (unique_emails init_db) as H by constructor.
  split; [exact H|].
  exact (emails_stay_unique default_config trace_other init_db H).
Defined.

Lemma responses_follow_template_witness :
  templated init_db /\
  fst (get_messages 1 (snd (run default_config trace0 init_db))) =
    Ok (JDict [field "messages"
                 (JList [message_json (text "bye", text "Response to: bye", 5000%Z);
                         message_json (text "hi", text "Response to: hi", 1000%Z)])]) /\
  Forall (fun e => exists message created_at,
            e = JDict [field "message" (JStr message);
                       field "response"
                         (JStr (text "Response to: " ++ message)%list);
                       field "created_at" (JTime created_at)])
         [message_json (text "bye", text "Response to: bye", 5000%Z);
          message_json (text "hi", text "Response to: hi", 1000%Z)].
Proof.
  assert (templated init_db) as H by constructor.
  split; [exact H|]. split; [reflexivity|].
  exact (responses_follow_template default_config trace0 init_db 1 _ H eq_refl).
Defined.

(** ** Wildcards in the query *)

Lemma patternCompare_prefix (q p z : str) :
  patternCompare p z = true -> patternCompare (q ++ p) (q ++ z) = true.
Proof.
  intros H. induction q as [|c q IH]; cbn [List.app]; [exact H|].
  destruct (N.eq_dec c matchAll) as [->|Hc].
  - rewrite patternCompare_star. apply orb_true_iff. right.
    cbv beta iota. rewrite patternCompare_star, IH. reflexivity.
  - rewrite patternCompare_char by exact Hc.
    rewrite char_match_refl, IH. reflexivity.
Qed.

Lemma patternCompare_gap (q1 q2 before gap after : str) :
  patternCompare (like_pattern (q1 ++ matchAll :: q2))
                 (before ++ q1 ++ gap ++ q2 ++ after) = true.
Proof.
  unfold like_pattern. apply patternCompare_star_iff.
  exists before, (q1 ++ gap ++ q2 ++ after)%list. split; [reflexivity|].
  rewrite <- app_assoc. apply patternCompare_prefix. cbn [List.app].
  apply patternCompare_star_iff. exists gap, (q2 ++ after)%list.
  split; [reflexivity|]. apply patternCompare_self.
Qed.

Lemma patternCompare_any (q1 q2 before after : str) (x : char) :
  patternCompare (like_pattern (q1 ++ matchOne :: q2))
                 (before ++ q1 ++ x :: q2 ++ after) = true.
Proof.
  unfold like_pattern. apply patternCompare_star_iff.
  exists before, (q1 ++ x :: q2 ++ after)%list. split; [reflexivity|].
  rewrite <- app_assoc. apply patternCompare_prefix. cbn [List.app].
  rewrite patternCompare_char by discriminate.
  rewrite N.eqb_refl, orb_true_r. apply patternCompare_self.
Qed.

Lemma no_nul_parts (a b c : str) : ~ In 0%N (a ++ b ++ c) -> ~ In 0%N b.
Proof.
  intros H Hin. apply H. apply in_or_app. right. apply in_or_app. left. exact Hin.
Qed.

(** [%] and [_] typed into a query are wildcards.  With a user id that fits
    a 64-bit integer and a pattern of at most 50000 bytes, the search for
    [q1%q2] returns every document of the user in whose content (before the
    first NUL) [q1] occurs and [q2] occurs somewhere after it, and the
    search for [q1_q2] every document where one character, whichever, stands
    between them. *)
Theorem search_query_wildcards (uid : Z) (q1 q2 : str) (db : store) (d : document_row)
    (Hid : sqlite_int uid = true)
    (Hd : In d (documents_of uid db)) :
  (forall before gap after,
     c_str (d_content d) = (before ++ q1 ++ gap ++ q2 ++ after)%list ->
     (nbytes (like_pattern (q1 ++ matchAll :: q2)) <= SQLITE_MAX_LIKE_PATTERN_LENGTH)%Z ->
     exists results,
       fst (search uid (q1 ++ matchAll :: q2) db) =
         Ok (JDict [field "query" (JStr (q1 ++ matchAll :: q2));
                    field "results" (JList results)]) /\
       In (result_json (row_of d)) results) /\
  (forall before x after,
     c_str (d_content d) = (before ++ q1 ++ x :: q2 ++ after)%list ->
     (nbytes (like_pattern (q1 ++ matchOne :: q2)) <= SQLITE_MAX_LIKE_PATTERN_LENGTH)%Z ->
     exists results,
       fst (search uid (q1 ++ matchOne :: q2) db) =
         Ok (JDict [field "query" (JStr (q1 ++ matchOne :: q2));
                    field "results" (JList results)]) /\
       In (result_json (row_of d)) results).
Proof.
  pose proof (c_str_no_nul (d_content d)) as Hnul.
  split.
  - intros before gap after Hc Hlen. rewrite Hc in Hnul.
    eexists. split; [apply search_ok; assumption|].
    apply (in_map result_json). apply (in_map row_of).
    apply like_hit_documents_of. split; [exact Hd|].
    rewrite c_str_like_pattern, Hc; [apply patternCompare_gap|].
    intros Hin. apply in_app_or in Hin. destruct Hin as [Hin|[E|Hin]].
    + apply (no_nul_parts before q1 _ Hnul). exact Hin.
    + discriminate.
    + apply Hnul. apply in_or_app. right. apply in_or_app. right.
      apply in_or_app. right. apply in_or_app. left. exact Hin.
  - intros before x after Hc Hlen. rewrite Hc in Hnul.
    eexists. split; [apply search_ok; assumption|].
    apply (in_map result_json). apply (in_map row_of).
    apply like_hit_documents_of. split; [exact Hd|].
    rewrite c_str_like_pattern, Hc; [apply patternCompare_any|].
    intros Hin. apply in_app_or in Hin. destruct Hin as [Hin|[E|Hin]].
    + apply (no_nul_parts before q1 _ Hnul). exact Hin.
    + discriminate.
    + apply Hnul. apply in_or_app. right. apply in_or_app. right.
      right. apply in_or_app. left. exact Hin.
Qed.

(** ** A chat call and the list of messages *)



Lemma search_query_wildcards_witness :
  sqlite_int 1 = true /\
  In (mk_document 1 1 (text "notes.txt") (text "Hello World") 1000)
     (documents_of 1 db_hello) /\
  exists results,
    fst (search 1 (text "He%ld") db_hello) =
      Ok (JDict [field "query" (JStr (text "He%ld")); field "results" (JList results)]) /\
    In (result_json (text "notes.txt", text "Hello World")) results.
Proof.
  assert (In (mk_document 1 1 (text "notes.txt") (text "Hello World") 1000)
             (documents_of 1 db_hello)) as Hd.
  { left. reflexivity. }
  assert (nbytes (like_pattern (text "He%ld")) <= SQLITE_MAX_LIKE_PATTERN_LENGTH)%Z
    as Hlen.
  { vm_compute. discriminate. }
  split; [reflexivity|]. split; [exact Hd|].
  exact (proj1 (search_query_wildcards 1 (text "He") (text "ld") db_hello _ eq_refl Hd)
               [] (text "llo Wor") [] eq_refl Hlen).
Defined.

